(** * fullCodeTxt.py: bundling a list of source files into one text file

    A shallow embedding of [extract_and_combine_files] from
    [src/fullCodeTxt.py] and the properties of its output.

    Modelling choices.
    - A Python [str] is represented by its UTF-8 encoding, a Rocq [string]
      (a sequence of bytes).  Concatenation, [startswith], [endswith],
      [rfind] of the ASCII separator and slicing at such an index commute
      with that encoding, so the path functions and the f-strings of the
      source are plain byte-string operations here.  Decoding a file with
      [encoding='utf-8'] is then: check that the bytes are well-formed
      UTF-8, and keep them.  A [str] with a lone surrogate has no UTF-8
      encoding and is outside the model.
    - The writes to the output file are outside every [try]: a write that
      raises (a text that cannot be encoded, a full disk) ends the run.  The
      model follows the runs in which the writes succeed.
    - The filesystem is a finite map from path strings to nodes; a path that
      is not a key does not exist.  Two spellings of one path are two keys.
    - The output file is truncated when it is opened; the text written to it
      goes through the buffers of the file object and is all on the disk when
      the [with] block closes it.  How much of it is on the disk before that
      is the business of the buffered writer, [on_disk]: it is observable
      only when the output file is itself one of the listed paths, which
      then reads what has been flushed so far.  The disk an iteration of the
      loop reads is taken at the start of the iteration.
    - [os.path], [os.linesep] and the buffering of the file objects depend on
      the platform: they are the fields of the class [os], instantiated for
      POSIX paths and CPython's buffers by [posix]. *)

From stdpp Require Import gmap strings list fin_maps.
From Stdlib Require Import Ascii NArith.

#[local] Open Scope N_scope.

(** ** Characters and small string functions *)

Definition LF : ascii := "010"%char.
Definition CR : ascii := "013"%char.
Definition SEP : ascii := "/"%char.

(** The string made of one line feed: the [\n] of the source's literals. *)
Definition nl : string := String LF "".

(** [s.startswith(c)] and [s.endswith(c)] for a one-character [c]. *)
Definition startswith (c : ascii) (s : string) : bool :=
  match s with
  | String a _ => Ascii.eqb a c
  | EmptyString => false
  end.

Fixpoint endswith (c : ascii) (s : string) : bool :=
  match s with
  | EmptyString => false
  | String a EmptyString => Ascii.eqb a c
  | String _ rest => endswith c rest
  end.

(** [s.rfind(c)]: the highest index of [c] in [s], or [-1]. *)
Fixpoint rfind (c : ascii) (s : string) : Z :=
  match s with
  | EmptyString => (-1)%Z
  | String a rest =>
      let i := rfind c rest in
      if (0 <=? i)%Z then (i + 1)%Z
      else if Ascii.eqb a c then 0%Z else (-1)%Z
  end.

(** [s[i:]] for a natural [i]. *)
Fixpoint slice_from (i : nat) (s : string) : string :=
  match i, s with
  | O, _ => s
  | S _, EmptyString => EmptyString
  | S j, String _ rest => slice_from j rest
  end.

(** ** The platform: [os.path.join], [os.path.basename], [os.linesep] *)

Class os := {
  path_join : string → string → string;
  path_basename : string → string;
  linesep : string;
  (** the bytes of a file opened for writing that have reached the disk once
      these chunks of bytes have been written to it, oldest first *)
  on_disk : list string → string;
  on_disk_nil : on_disk [] = ""
}.

Module posixpath.

(** [posixpath.join(a, b)]: an absolute [b] replaces [a]; otherwise [b] is
    appended, after a separator unless [a] is empty or ends with one. *)
Definition join (a b : string) : string :=
  if startswith SEP b then b
  else if bool_decide (a = "") || endswith SEP a then a +:+ b
  else a +:+ String SEP b.

(** [posixpath.basename(p)]: [i = p.rfind('/') + 1; return p[i:]]. *)
Definition basename (p : string) : string :=
  let i := (rfind SEP p + 1)%Z in
  slice_from (Z.to_nat i) p.

End posixpath.

(** ** The buffers of a text file opened for writing, as CPython has them

    [open(path, 'w')] stacks a [TextIOWrapper] on a [BufferedWriter] on the
    raw file.  [TextIOWrapper.write] keeps the encoded bytes pending and
    passes them down once [CHUNK_SIZE] of them are pending, or before they
    would exceed it; [BufferedWriter.write] keeps what fits its buffer, and
    otherwise writes out the buffer and, when the data is larger than the
    buffer, the data too. *)

Module cpython_io.

Definition CHUNK_SIZE : N := 8192.
Definition DEFAULT_BUFFER_SIZE : N := 8192.

Fixpoint len (s : string) : N :=
  match s with
  | EmptyString => 0
  | String _ rest => N.succ (len rest)
  end.

Record writer : Type := Writer {
  pending : string;   (* bytes held by the text layer *)
  buffered : string;  (* bytes held by the buffered layer *)
  flushed : string    (* bytes written to the raw file *)
}.

Definition buffered_write (buffer_size : N) (data : string) (st : writer)
  : writer :=
  if len data <=? buffer_size - len (buffered st) then
    Writer (pending st) (buffered st +:+ data) (flushed st)
  else if buffer_size <? len data then
    Writer (pending st) "" (flushed st +:+ buffered st +:+ data)
  else
    Writer (pending st) data (flushed st +:+ buffered st).

Definition writeflush (buffer_size : N) (st : writer) : writer :=
  buffered_write buffer_size (pending st)
    (Writer "" (buffered st) (flushed st)).

Definition text_write (buffer_size : N) (b : string) (st : writer) : writer :=
  let st :=
    if CHUNK_SIZE <? len (pending st) + len b then writeflush buffer_size st
    else st in
  let st := Writer (pending st +:+ b) (buffered st) (flushed st) in
  if CHUNK_SIZE <=? len (pending st) then writeflush buffer_size st else st.

Definition on_disk (buffer_size : N) (chunks : list string) : string :=
  flushed
    (fold_left (λ st b, text_write buffer_size b st) chunks (Writer "" "" "")).

End cpython_io.

#[export] Instance posix : os := {|
  path_join := posixpath.join;
  path_basename := posixpath.basename;
  linesep := nl;
  on_disk := cpython_io.on_disk cpython_io.DEFAULT_BUFFER_SIZE;
  on_disk_nil := eq_refl
|}.

(** ** Text files

    [open(path, 'r', encoding='utf-8')] followed by [read()] decodes the bytes
    of the file as UTF-8 and, the [newline] argument being left to its
    default, translates every line ending ([\r\n] or a lone [\r]) to [\n].
    [open(path, 'w', encoding='utf-8')] translates every [\n] written to
    [os.linesep]. *)

(** What the first byte of a UTF-8 sequence announces: the number of
    continuation bytes and the range allowed for the first of them (the
    ranges exclude overlong forms, surrogates and code points above
    U+10FFFF, which Python's strict decoder rejects). *)
Inductive lead : Type :=
  | Single
  | Double
  | Triple (lo hi : N)
  | Quadruple (lo hi : N)
  | Invalid.

Definition lead_of (b : N) : lead :=
  if b <=? 127 then Single
  else if b <? 194 then Invalid
  else if b <=? 223 then Double
  else if b =? 224 then Triple 160 191
  else if b =? 237 then Triple 128 159
  else if b <=? 239 then Triple 128 191
  else if b =? 240 then Quadruple 144 191
  else if b <=? 243 then Quadruple 128 191
  else if b =? 244 then Quadruple 128 143
  else Invalid.

Definition byte_in (lo hi : N) (c : ascii) : bool :=
  (lo <=? N_of_ascii c) && (N_of_ascii c <=? hi).

Definition continuation : ascii → bool := byte_in 128 191.

Fixpoint utf8_valid (s : string) : bool :=
  match s with
  | EmptyString => true
  | String b0 s1 =>
      match lead_of (N_of_ascii b0) with
      | Single => utf8_valid s1
      | Double =>
          match s1 with
          | String b1 s2 => continuation b1 && utf8_valid s2
          | _ => false
          end
      | Triple lo hi =>
          match s1 with
          | String b1 (String b2 s3) =>
              byte_in lo hi b1 && continuation b2 && utf8_valid s3
          | _ => false
          end
      | Quadruple lo hi =>
          match s1 with
          | String b1 (String b2 (String b3 s4)) =>
              byte_in lo hi b1 && continuation b2 && continuation b3
              && utf8_valid s4
          | _ => false
          end
      | Invalid => false
      end
  end.

(** Universal newlines on input. *)
Fixpoint universal_newlines (s : string) : string :=
  match s with
  | EmptyString => EmptyString
  | String c rest =>
      if Ascii.eqb c CR then
        match rest with
        | String d rest' =>
            if Ascii.eqb d LF then String LF (universal_newlines rest')
            else String LF (universal_newlines rest)
        | EmptyString => String LF EmptyString
        end
      else String c (universal_newlines rest)
  end.

(** Newline translation on output. *)
Fixpoint translate_newlines (sep : string) (s : string) : string :=
  match s with
  | EmptyString => EmptyString
  | String c rest =>
      if Ascii.eqb c LF then sep +:+ translate_newlines sep rest
      else String c (translate_newlines sep rest)
  end.

(** [s] holds no carriage return. *)
Fixpoint no_cr (s : string) : bool :=
  match s with
  | EmptyString => true
  | String c rest => negb (Ascii.eqb c CR) && no_cr rest
  end.

(** ** The filesystem *)

(** A path that exists is a regular file with its bytes, or something every
    [open] of which raises an [OSError] (a directory, a file the process has
    no permission on); [msg] is the [str] of that exception. *)
Inductive node : Type :=
  | File (bytes : string)
  | Denied (msg : string).

#[export] Instance node_eq_dec : EqDecision node.
Proof. solve_decision. Defined.

Record world : Type := World {
  disk : gmap string node;
  stdout : list string
}.

Inductive result (A : Type) : Type :=
  | Ok (a : A)
  | Raised (e : string).
Arguments Ok {A} a.
Arguments Raised {A} e.

(** [os.path.exists(path)]. *)
Definition path_exists (d : gmap string node) (path : string) : bool :=
  bool_decide (is_Some (d !! path)).

(** The outcome of the [try] body's [open(full_path, 'r', encoding='utf-8')]
    and [infile.read()]. *)
Inductive read_outcome : Type :=
  | Content (content : string)
  | UnicodeDecodeError
  | Exception (e : string).

Definition read_text (d : gmap string node) (path : string) : read_outcome :=
  match d !! path with
  | Some (File bytes) =>
      if utf8_valid bytes then Content (universal_newlines bytes)
      else UnicodeDecodeError
  | Some (Denied msg) => Exception msg
  | None => Exception ("[Errno 2] No such file or directory: '" +:+ path +:+ "'")
  end.

(** [open(output_file, 'w', encoding='utf-8')]: creates the file or truncates
    it; the exception of a path that cannot be opened is not caught. *)
Definition open_w (d : gmap string node) (path : string)
  : result (gmap string node) :=
  match d !! path with
  | Some (Denied msg) => Raised msg
  | _ => Ok (<[path := File ""]> d)
  end.

(** The output file object: the strings written to it so far, one per call
    of [write], oldest first. *)
Definition outfile_t : Type := list string.

(** A write that succeeds. *)
Definition write (s : string) (outfile : outfile_t) : outfile_t :=
  outfile ++ [s].

(** The text held by the file object. *)
Definition text_of (outfile : outfile_t) : string :=
  foldr String.append "" outfile.

(** Leaving the [with] block: the text goes to the disk. *)
Definition close_w `{os} (d : gmap string node) (path : string)
    (outfile : outfile_t) : gmap string node :=
  <[path := File (translate_newlines linesep (text_of outfile))]> d.

(** The disk while the file object [outfile] of the file [path] is open: the
    file holds the bytes that have been flushed. *)
Definition seen `{os} (d : gmap string node) (path : string)
    (outfile : outfile_t) : gmap string node :=
  <[path := File (on_disk (map (translate_newlines linesep) outfile))]> d.

(** ** The program *)

Section program.
Context `{os}.

Definition header (file_name : string) : string :=
  file_name +:+ "<" +:+ nl +:+ nl.

Definition footer (file_name : string) : string :=
  nl +:+ nl +:+ "END OF " +:+ file_name +:+ ">" +:+ nl +:+ nl.

Definition encoding_error (full_path : string) : string :=
  "Error: Unable to read " +:+ full_path +:+ " due to encoding issues." +:+ nl.

Definition unexpected_error (file_name e : string) : string :=
  "Error: An unexpected error occurred while reading " +:+ file_name
  +:+ ": " +:+ e +:+ nl.

Definition not_found (full_path : string) : string :=
  "Error: File not found - " +:+ full_path +:+ nl +:+ nl.

Definition completion (output_file : string) : string :=
  "File extraction complete. Output saved to " +:+ output_file.

(** The body of the [for] loop (lines 6 to 22 of the source): the header, the
    content or one of the two read-error lines, and the footer are written in
    the branch where the path exists; the other branch writes the
    file-not-found line and nothing else. *)
Definition process (d : gmap string node) (project_folder : string)
    (outfile : outfile_t) (file_path : string) : outfile_t :=
  let full_path := path_join project_folder file_path in
  if path_exists d full_path then
    let file_name := path_basename full_path in
    let outfile := write (header file_name) outfile in
    let outfile :=
      match read_text d full_path with
      | Content content => write content outfile
      | UnicodeDecodeError => write (encoding_error full_path) outfile
      | Exception e => write (unexpected_error file_name e) outfile
      end in
    write (footer file_name) outfile
  else
    write (not_found full_path) outfile.

(** One iteration, on the disk as it is by then. *)
Definition step (d : gmap string node) (output_file project_folder : string)
    (outfile : outfile_t) (file_path : string) : outfile_t :=
  process (seen d output_file outfile) project_folder outfile file_path.

(** [output_file] is [None] when the caller leaves the argument out. *)
Definition extract_and_combine_files (w : world) (project_folder : string)
    (file_paths : list string) (output_file : option string)
  : result world :=
  let output_file := default "full_code.txt" output_file in
  match open_w (disk w) output_file with
  | Raised e => Raised e
  | Ok d =>
      let outfile :=
        fold_left (step d output_file project_folder) file_paths [] in
      let d := close_w d output_file outfile in
      Ok {| disk := d; stdout := stdout w ++ [completion output_file] |}
  end.

End program.

(** The bytes of the file [path] after a run, when the run completed and
    [path] is a regular file. *)
Definition file_after (r : result world) (path : string) : option string :=
  match r with
  | Ok w =>
      match disk w !! path with
      | Some (File bytes) => Some bytes
      | _ => None
      end
  | Raised _ => None
  end.


(** ** Vocabulary of the properties *)

(** The chunks one iteration of the loop writes. *)
Definition block `{os} (d : gmap string node)
    (project_folder file_path : string) : outfile_t :=
  process d project_folder [] file_path.

(** The four ways a path is rendered, by the state of the resolved path on
    the disk [d] the loop reads. *)
Inductive rendered `{os} (d : gmap string node) (project_folder file_path : string)
  : outfile_t → Prop :=
  | rendered_content bytes :
      d !! path_join project_folder file_path = Some (File bytes) →
      utf8_valid bytes = true →
      rendered d project_folder file_path
        [header (path_basename (path_join project_folder file_path));
         universal_newlines bytes;
         footer (path_basename (path_join project_folder file_path))]
  | rendered_undecodable bytes :
      d !! path_join project_folder file_path = Some (File bytes) →
      utf8_valid bytes = false →
      rendered d project_folder file_path
        [header (path_basename (path_join project_folder file_path));
         encoding_error (path_join project_folder file_path);
         footer (path_basename (path_join project_folder file_path))]
  | rendered_unreadable msg :
      d !! path_join project_folder file_path = Some (Denied msg) →
      rendered d project_folder file_path
        [header (path_basename (path_join project_folder file_path));
         unexpected_error (path_basename (path_join project_folder file_path)) msg;
         footer (path_basename (path_join project_folder file_path))]
  | rendered_missing :
      d !! path_join project_folder file_path = None →
      rendered d project_folder file_path
        [not_found (path_join project_folder file_path)].

(** The chunks the loop writes, entry by entry, when [outfile] has been
    written before: each path has the entry of its state on the disk as its
    iteration finds it. *)
Fixpoint entries `{os} (d : gmap string node)
    (output_file project_folder : string) (file_paths : list string)
    (outfile : outfile_t) : list outfile_t :=
  match file_paths with
  | [] => []
  | file_path :: rest =>
      let b := block (seen d output_file outfile) project_folder file_path in
      b :: entries d output_file project_folder rest (outfile ++ b)
  end.




(** The name of the output file: the argument, or its default. *)
Abbreviation output_name output_file := (default "full_code.txt" output_file).

(** [c in s], for a character [c]. *)
Fixpoint contains (c : ascii) (s : string) : bool :=
  match s with
  | EmptyString => false
  | String a rest => Ascii.eqb a c || contains c rest
  end.

(** Every line of [s] ends with a carriage return and a line feed: neither
    character occurs apart from that pair. *)
Fixpoint crlf_only (s : string) : bool :=
  match s with
  | EmptyString => true
  | String c rest =>
      if Ascii.eqb c CR then
        match rest with
        | String d rest' => Ascii.eqb d LF && crlf_only rest'
        | EmptyString => false
        end
      else negb (Ascii.eqb c LF) && crlf_only rest
  end.

(** ** The script

    The statements at module level (lines 26 to 54 of the source): the base
    directory, the list of files (the entries commented out in the source are
    absent from the list) and the call, which leaves [output_file] out. *)

Module script.

Definition project_folder : string :=
  "C:\Users\Albion\Documents\AlbionsLocal\Projects\DAILYQUIZ\".

Definition file_paths : list string :=
  [ "src/components/AnimeCard.tsx";
    "src/components/DailyQuizStatus.tsx";
    "src/navigation/AppNavigator.tsx";
    "src/navigation/MainTabNavigator.tsx";
    "src/navigation/PlayNavigator.tsx";
    "src/navigation/types.ts";
    "src/screens/PlayScreen.tsx";
    "src/screens/QuizScreen.tsx";
    "src/screens/RankingsScreen.tsx";
    "src/screens/LoginScreen.tsx";
    "src/screens/RegisterScreen.tsx";
    "src/screens/UserCreationScreen.tsx";
    "src/screens/ProfileScreen.tsx";
    "src/utils/firebase.ts";
    "src/utils/quizUtils.ts";
    "src/utils/rankingUtils.ts";
    "src/themes/theme.ts";
    "App.tsx" ].


End script.

(** ** Concrete filesystems for the scenarios *)

Definition empty_world : world := World ∅ [].

(** [/proj/a.txt] holds [hello]. *)
Definition hello_world : world :=
  World {["/proj/a.txt" := File "hello"]} [].

(** [/proj/a.txt] holds three lines, the first ended by a carriage return and
    a line feed, the second by a lone carriage return. *)
Definition crlf_bytes : string := "a" +:+ String CR nl +:+ "b" +:+ String CR "c".

Definition crlf_world : world :=
  World {["/proj/a.txt" := File crlf_bytes]} [].

(** One path of each kind: readable, undecodable (a lone byte 255) and
    unreadable; [/proj/missing.txt] does not exist. *)
Definition mixed_world : world :=
  World (<["/proj/a.txt" := File "hello"]>
         (<["/proj/bin.dat" := File (String "255" "")]>
         (<["/proj/secret.txt" :=
              Denied "[Errno 13] Permission denied: '/proj/secret.txt'"]> ∅)))
        [].




(** Two files of the same name in two directories. *)
Definition twin_world : world :=
  World (<["/proj/one/a.txt" := File "x"]>
         (<["/proj/two/a.txt" := File "y"]> ∅)) [].

(** The directory [/proj/src/], which no [open] can read, and a path whose
    output file is a directory. *)
Definition dir_world : world :=
  World (<["/proj/src/" := Denied "[Errno 21] Is a directory: '/proj/src/'"]>
         (<["out" := Denied "[Errno 21] Is a directory: 'out'"]> ∅)) [].

(** ** Sanity checks of the embedding on concrete inputs *)

Example join_relative : posixpath.join "/proj" "missing.txt" = "/proj/missing.txt".
Proof. reflexivity. Qed.

Example join_trailing_sep : posixpath.join "/proj/" "a.txt" = "/proj/a.txt".
Proof. reflexivity. Qed.

Example join_absolute : posixpath.join "/proj" "/etc/a.txt" = "/etc/a.txt".
Proof. reflexivity. Qed.

Example basename_nested : posixpath.basename "/proj/src/App.tsx" = "App.tsx".
Proof. reflexivity. Qed.

Example basename_trailing_sep : posixpath.basename "/proj/src/" = "".
Proof. reflexivity. Qed.

Example utf8_accepts_two_bytes :
  utf8_valid (String "195" (String "169" "")) = true.
Proof. reflexivity. Qed.

Example utf8_rejects_overlong :
  utf8_valid (String "192" (String "128" "")) = false.
Proof. reflexivity. Qed.

Example utf8_rejects_surrogate :
  utf8_valid (String "237" (String "160" (String "128" ""))) = false.
Proof. reflexivity. Qed.

Example universal_newlines_mixed :
  universal_newlines (String CR (String LF (String "a" (String CR "b"))))
  = String LF (String "a" (String LF "b")).
Proof. reflexivity. Qed.

(** ** Strings and chunks *)

Lemma append_cons (x : ascii) (a b : string) :
  String x a +:+ b = String x (a +:+ b).
Proof. reflexivity. Qed.

Lemma append_assoc (a b c : string) : (a +:+ b) +:+ c = a +:+ b +:+ c.
Proof.
  induction a as [|x a IH]; [reflexivity |].
  by rewrite !append_cons, IH.
Qed.

Lemma append_nil_r (a : string) : a +:+ "" = a.
Proof.
  induction a as [|x a IH]; [reflexivity |].
  by rewrite append_cons, IH.
Qed.

Lemma text_of_app (xs ys : outfile_t) :
  text_of (xs ++ ys) = text_of xs +:+ text_of ys.
Proof.
  unfold text_of.
  induction xs as [|x xs IH]; simpl; [reflexivity |].
  by rewrite IH, append_assoc.
Qed.


Lemma translate_newlines_app (sep a b : string) :
  translate_newlines sep (a +:+ b)
  = translate_newlines sep a +:+ translate_newlines sep b.
Proof.
  induction a as [|x a IH]; [reflexivity |].
  rewrite append_cons. simpl. rewrite IH.
  destruct (Ascii.eqb x LF); [by rewrite append_assoc | reflexivity].
Qed.

(** On POSIX the translation on output changes nothing. *)
Lemma translate_newlines_posix (s : string) : translate_newlines nl s = s.
Proof.
  induction s as [|x s IH]; simpl; [reflexivity |].
  rewrite IH. destruct (Ascii.eqb_spec x LF) as [->|_]; reflexivity.
Qed.

(** A file without carriage returns is read as it is. *)
Lemma universal_newlines_no_cr (s : string) :
  no_cr s = true → universal_newlines s = s.
Proof.
  induction s as [|x s IH]; simpl; [reflexivity |].
  destruct (Ascii.eqb x CR); simpl; [discriminate |].
  intros Hs. by rewrite IH.
Qed.

Lemma universal_newlines_cons (c : ascii) (rest : string) :
  universal_newlines (String c rest)
  = if Ascii.eqb c CR then
      match rest with
      | String d rest' =>
          if Ascii.eqb d LF then String LF (universal_newlines rest')
          else String LF (universal_newlines rest)
      | EmptyString => String LF EmptyString
      end
    else String c (universal_newlines rest).
Proof. reflexivity. Qed.

(** Universal newlines leave no carriage return behind. *)
Lemma universal_newlines_clean (s : string) : no_cr (universal_newlines s) = true.
Proof.
  assert (H : ∀ (n : nat) s,
    (String.length s < n)%nat → no_cr (universal_newlines s) = true).
  { clear s. induction n as [|n IH]; intros s Hn; [lia |].
    destruct s as [|x s]; [reflexivity |].
    rewrite universal_newlines_cons.
    destruct (Ascii.eqb x CR) eqn:Hx.
    - destruct s as [|y s]; [reflexivity |].
      destruct (Ascii.eqb y LF);
        change (no_cr (String LF ?t)) with (no_cr t);
        apply IH; simpl in Hn; simpl; lia.
    - change (no_cr (String x ?t)) with (negb (Ascii.eqb x CR) && no_cr t).
      rewrite Hx. simpl. apply IH. simpl in Hn. lia. }
  apply (H (S (String.length s))). lia.
Qed.

(** ** The loop *)

Section loop.
Context `{os}.
Implicit Types (d : gmap string node) (outfile : outfile_t).

Lemma process_block d project_folder outfile file_path :
  process d project_folder outfile file_path
  = outfile ++ block d project_folder file_path.
Proof.
  unfold block, process, write.
  destruct (path_exists d _); [|reflexivity].
  destruct (read_text d _); simpl; by rewrite <- !app_assoc.
Qed.


Lemma step_entries d output_file project_folder file_paths outfile :
  fold_left (step d output_file project_folder) file_paths outfile
  = outfile ++ concat (entries d output_file project_folder file_paths outfile).
Proof.
  revert outfile.
  induction file_paths as [|p ps IH]; intros outfile; simpl.
  - by rewrite app_nil_r.
  - unfold step at 2. by rewrite IH, process_block, <- app_assoc.
Qed.

(** A run whose output file opens completes, and leaves this world. *)
Lemma run_ok (w : world) project_folder file_paths output_file d :
  open_w (disk w) (output_name output_file) = Ok d →
  extract_and_combine_files w project_folder file_paths output_file
  = Ok {| disk := <[default "full_code.txt" output_file :=
                     File (translate_newlines linesep
                       (text_of (concat
                          (entries d (output_name output_file) project_folder
                             file_paths []))))]> d;
          stdout := stdout w ++ [completion (default "full_code.txt" output_file)] |}.
Proof.
  intros Hopen. unfold extract_and_combine_files. rewrite Hopen.
  unfold close_w. by rewrite step_entries.
Qed.

Lemma run_file (w : world) project_folder file_paths output_file d :
  open_w (disk w) (output_name output_file) = Ok d →
  file_after (extract_and_combine_files w project_folder file_paths output_file)
    (default "full_code.txt" output_file)
  = Some (translate_newlines linesep
      (text_of (concat
         (entries d (output_name output_file) project_folder file_paths [])))).
Proof.
  intros Hopen. rewrite (run_ok _ _ _ _ _ Hopen). simpl.
  by rewrite lookup_insert_eq.
Qed.

(** Before anything is written, the disk is as [open] left it. *)
Lemma seen_nil d0 output_file d :
  open_w d0 output_file = Ok d → seen d output_file [] = d.
Proof.
  unfold open_w, seen. simpl. rewrite on_disk_nil.
  destruct (d0 !! output_file) as [[bytes|msg]|]; intros Ho; inversion Ho;
    by rewrite insert_insert_eq.
Qed.

End loop.

(** ** Properties of the bundle *)

Section claims.
Context `{os}.
Implicit Types (w : world) (d : gmap string node) (outfile : outfile_t).
Implicit Types (project_folder file_path : string) (file_paths : list string).
Implicit Types (output_file : option string).

Lemma path_exists_Some d path n : d !! path = Some n → path_exists d path = true.
Proof. intros Hn. unfold path_exists. rewrite Hn. by apply bool_decide_eq_true. Qed.

Lemma path_exists_None d path : d !! path = None → path_exists d path = false.
Proof.
  intros Hn. unfold path_exists. rewrite Hn.
  apply bool_decide_eq_false. by intros [n Hn'].
Qed.

(** The block of a path is one of the four renderings. *)
Lemma block_rendered d project_folder file_path :
  rendered d project_folder file_path (block d project_folder file_path).
Proof.
  unfold block, process, read_text, write.
  destruct (d !! path_join project_folder file_path) as [[bytes|msg]|] eqn:Hd.
  - rewrite (path_exists_Some _ _ _ Hd).
    destruct (utf8_valid bytes) eqn:Hv; simpl.
    + by apply (rendered_content _ _ _ bytes).
    + by apply (rendered_undecodable _ _ _ bytes).
  - rewrite (path_exists_Some _ _ _ Hd). simpl. by apply rendered_unreadable.
  - rewrite (path_exists_None _ _ Hd). simpl. by apply rendered_missing.
Qed.

(** The output file of a run over the one path [file_path]. *)
Lemma run_single w project_folder file_path output_file d :
  open_w (disk w) (output_name output_file) = Ok d →
  file_after (extract_and_combine_files w project_folder [file_path] output_file)
    (output_name output_file)
  = Some (translate_newlines linesep (text_of (block d project_folder file_path))).
Proof.
  intros Hopen. rewrite (run_file _ _ _ _ _ Hopen). simpl.
  by rewrite (seen_nil _ _ _ Hopen), app_nil_r.
Qed.

(** C1 (amended): for a relative path that does not exist under the base
    directory when it is checked, the loop writes the single line
    [Error: File not found - {resolvedPath}] followed by a blank line, with
    no header line before it and no END OF footer after it; the output file
    of a run over that one path holds exactly this line. *)
Theorem missing_file_block w project_folder file_path output_file d :
  open_w (disk w) (output_name output_file) = Ok d →
  d !! path_join project_folder file_path = None →
  (∀ outfile,
     process d project_folder outfile file_path
     = outfile ++ [not_found (path_join project_folder file_path)]) ∧
  file_after (extract_and_combine_files w project_folder [file_path] output_file)
    (output_name output_file)
  = Some (translate_newlines linesep
            (not_found (path_join project_folder file_path))).
Proof.
  intros Hopen Hd.
  assert (Hb : block d project_folder file_path
               = [not_found (path_join project_folder file_path)]).
  { unfold block, process. by rewrite (path_exists_None _ _ Hd). }
  split.
  - intros outfile. by rewrite process_block, Hb.
  - rewrite (run_single _ _ _ _ _ Hopen), Hb. simpl. by rewrite append_nil_r.
Qed.







(** The block of a path that exists, by the outcome of reading it. *)
Lemma existing_file_block d project_folder file_path :
  path_exists d (path_join project_folder file_path) = true →
  block d project_folder file_path
  = [header (path_basename (path_join project_folder file_path));
     match read_text d (path_join project_folder file_path) with
     | Content content => content
     | UnicodeDecodeError => encoding_error (path_join project_folder file_path)
     | Exception e =>
         unexpected_error (path_basename (path_join project_folder file_path)) e
     end;
     footer (path_basename (path_join project_folder file_path))].
Proof.
  intros He. unfold block, process, write. rewrite He.
  by destruct (read_text d _).
Qed.

Lemma text_of_three (a b c : string) : text_of [a; b; c] = a +:+ b +:+ c.
Proof. unfold text_of. simpl. by rewrite append_nil_r. Qed.

(** C3 (amended): for a path that exists and whose bytes are well-formed
    UTF-8, the text written between the header and the footer is the content
    of the file with every line ending (carriage return and line feed, or a
    lone carriage return) replaced by a line feed, as text mode reads it; it
    is the content byte for byte when the file holds no carriage return.
    Nothing else is transformed and no delimiter is escaped. *)
Theorem readable_file_block w project_folder file_path output_file d bytes :
  open_w (disk w) (output_name output_file) = Ok d →
  d !! path_join project_folder file_path = Some (File bytes) →
  utf8_valid bytes = true →
  (∀ outfile,
     process d project_folder outfile file_path
     = outfile ++ [header (path_basename (path_join project_folder file_path));
                   universal_newlines bytes;
                   footer (path_basename (path_join project_folder file_path))]) ∧
  (no_cr bytes = true → universal_newlines bytes = bytes) ∧
  file_after (extract_and_combine_files w project_folder [file_path] output_file)
    (output_name output_file)
  = Some (translate_newlines linesep
            (header (path_basename (path_join project_folder file_path))
             +:+ universal_newlines bytes
             +:+ footer (path_basename (path_join project_folder file_path)))).
Proof.
  intros Hopen Hd Hv.
  pose proof (existing_file_block d project_folder file_path
                (path_exists_Some _ _ _ Hd)) as Hb.
  unfold read_text in Hb. rewrite Hd, Hv in Hb.
  split; [|split].
  - intros outfile. by rewrite process_block, Hb.
  - apply universal_newlines_no_cr.
  - by rewrite (run_single _ _ _ _ _ Hopen), Hb, text_of_three.
Qed.

(** C4: for a path that exists but whose bytes do not decode as UTF-8, the
    loop writes [Error: Unable to read {resolvedPath} due to encoding issues.]
    in place of the content, after the header, and the END OF footer is still
    written after it. *)
Theorem undecodable_file_block w project_folder file_path output_file d bytes :
  open_w (disk w) (output_name output_file) = Ok d →
  d !! path_join project_folder file_path = Some (File bytes) →
  utf8_valid bytes = false →
  (∀ outfile,
     process d project_folder outfile file_path
     = outfile ++ [header (path_basename (path_join project_folder file_path));
                   "Error: Unable to read " +:+ path_join project_folder file_path
                     +:+ " due to encoding issues." +:+ nl;
                   nl +:+ nl +:+ "END OF "
                     +:+ path_basename (path_join project_folder file_path)
                     +:+ ">" +:+ nl +:+ nl]) ∧
  file_after (extract_and_combine_files w project_folder [file_path] output_file)
    (output_name output_file)
  = Some (translate_newlines linesep
            (header (path_basename (path_join project_folder file_path))
             +:+ encoding_error (path_join project_folder file_path)
             +:+ footer (path_basename (path_join project_folder file_path)))).
Proof.
  intros Hopen Hd Hv.
  pose proof (existing_file_block d project_folder file_path
                (path_exists_Some _ _ _ Hd)) as Hb.
  unfold read_text in Hb. rewrite Hd, Hv in Hb.
  split.
  - intros outfile. by rewrite process_block, Hb.
  - by rewrite (run_single _ _ _ _ _ Hopen), Hb, text_of_three.
Qed.

(** C5: for a path that exists but whose read raises an exception other
    than a decoding failure, with message [e], the loop writes
    [Error: An unexpected error occurred while reading {fileName}: {e}] in
    place of the content, after the header, followed by the END OF footer. *)
Theorem read_failure_block w project_folder file_path output_file d e :
  open_w (disk w) (output_name output_file) = Ok d →
  path_exists d (path_join project_folder file_path) = true →
  read_text d (path_join project_folder file_path) = Exception e →
  (∀ outfile,
     process d project_folder outfile file_path
     = outfile ++ [header (path_basename (path_join project_folder file_path));
                   "Error: An unexpected error occurred while reading "
                     +:+ path_basename (path_join project_folder file_path)
                     +:+ ": " +:+ e +:+ nl;
                   nl +:+ nl +:+ "END OF "
                     +:+ path_basename (path_join project_folder file_path)
                     +:+ ">" +:+ nl +:+ nl]) ∧
  file_after (extract_and_combine_files w project_folder [file_path] output_file)
    (output_name output_file)
  = Some (translate_newlines linesep
            (header (path_basename (path_join project_folder file_path))
             +:+ unexpected_error
                   (path_basename (path_join project_folder file_path)) e
             +:+ footer (path_basename (path_join project_folder file_path)))).
Proof.
  intros Hopen He Hr.
  pose proof (existing_file_block d project_folder file_path He) as Hb.
  rewrite Hr in Hb.
  split.
  - intros outfile. by rewrite process_block, Hb.
  - by rewrite (run_single _ _ _ _ _ Hopen), Hb, text_of_three.
Qed.


Lemma open_w_Ok d path d' :
  open_w d path = Ok d' →
  d' = <[path := File ""]> d ∧ ∀ msg, d !! path ≠ Some (Denied msg).
Proof.
  unfold open_w. destruct (d !! path) as [[bytes|msg]|]; intros Ho;
    inversion Ho; split; congruence.
Qed.

(** The output file is opened again over what a completed run left. *)
Lemma open_w_again d path d' text :
  open_w d path = Ok d' →
  open_w (<[path := File text]> d') path = Ok d'.
Proof.
  intros [-> _]%open_w_Ok. unfold open_w.
  rewrite lookup_insert_eq. by rewrite !insert_insert_eq.
Qed.

(** C7: a second run with the same arguments leaves a byte-identical output
    file, and indeed an identical disk: both over the filesystem of the first
    run left unchanged, and over the filesystem as the first run left it. *)
Theorem second_run_identical w project_folder file_paths output_file w1 :
  extract_and_combine_files w project_folder file_paths output_file = Ok w1 →
  (∀ w', disk w' = disk w →
     ∃ w2, extract_and_combine_files w' project_folder file_paths output_file
           = Ok w2 ∧
           disk w2 = disk w1 ∧
           file_after (Ok w2) (output_name output_file)
           = file_after (Ok w1) (output_name output_file)) ∧
  (∃ w2, extract_and_combine_files w1 project_folder file_paths output_file
         = Ok w2 ∧
         disk w2 = disk w1 ∧
         file_after (Ok w2) (output_name output_file)
         = file_after (Ok w1) (output_name output_file)).
Proof.
  intros Hrun.
  destruct (open_w (disk w) (output_name output_file)) as [d|e] eqn:Hopen;
    [|unfold extract_and_combine_files in Hrun; rewrite Hopen in Hrun;
      discriminate].
  rewrite (run_ok _ _ _ _ _ Hopen) in Hrun. inversion Hrun as [Hw1]. clear Hrun.
  split.
  - intros w' Hw'. rewrite <- Hw' in Hopen.
    eexists. split; [exact (run_ok _ _ _ _ _ Hopen) |]. by simpl.
  - pose proof (open_w_again _ _ _
      (translate_newlines linesep
         (text_of (concat
            (entries d (output_name output_file) project_folder
               file_paths [])))) Hopen)
      as Hagain.
    eexists. split.
    + apply run_ok. simpl. exact Hagain.
    + by simpl.
Qed.


(** C9: for the empty list of paths the run still opens the output file,
    which creates it or truncates what it held, writes nothing to it and
    prints the completion message; the output file is opened, and so emptied,
    before any path is processed. *)
Theorem empty_list_run w project_folder output_file d :
  open_w (disk w) (output_name output_file) = Ok d →
  d = <[output_name output_file := File ""]> (disk w) ∧
  read_text d (output_name output_file) = Content "" ∧
  extract_and_combine_files w project_folder [] output_file
  = Ok {| disk := <[output_name output_file := File ""]> (disk w);
          stdout := stdout w ++ [completion (output_name output_file)] |}.
Proof.
  intros Hopen. pose proof Hopen as [Hd _]%open_w_Ok.
  split; [exact Hd |]. split.
  - unfold read_text. rewrite Hd, lookup_insert_eq. reflexivity.
  - rewrite (run_ok _ _ _ _ _ Hopen). simpl. rewrite Hd.
    by rewrite insert_insert_eq.
Qed.


End claims.

(** ** The scenarios, on POSIX *)

Lemma missing_file_block_witness :
  open_w (disk empty_world) "full_code.txt" = Ok {["full_code.txt" := File ""]} ∧
  ({["full_code.txt" := File ""]} : gmap string node)
    !! path_join "/proj" "missing.txt" = None ∧
  file_after (extract_and_combine_files empty_world "/proj" ["missing.txt"] None)
    "full_code.txt"
  = Some ("Error: File not found - /proj/missing.txt" +:+ nl +:+ nl).
Proof.
  assert (Hopen : open_w (disk empty_world) "full_code.txt"
                  = Ok {["full_code.txt" := File ""]}) by (vm_compute; reflexivity).
  assert (Hd : ({["full_code.txt" := File ""]} : gmap string node)
                 !! path_join "/proj" "missing.txt" = None)
    by (vm_compute; reflexivity).
  split; [exact Hopen |]. split; [exact Hd |].
  exact (proj2 (missing_file_block empty_world "/proj" "missing.txt" None _
                  Hopen Hd)).
Defined.

(** C1, as stated, fails: for the missing [missing.txt] under [/proj] the
    output is the file-not-found line alone, not that line after a header. *)
Lemma missing_file_has_no_header :
  file_after (extract_and_combine_files empty_world "/proj" ["missing.txt"] None)
    "full_code.txt"
  = Some ("Error: File not found - /proj/missing.txt" +:+ nl +:+ nl) ∧
  file_after (extract_and_combine_files empty_world "/proj" ["missing.txt"] None)
    "full_code.txt"
  ≠ Some ("missing.txt<" +:+ nl +:+ nl
          +:+ "Error: File not found - /proj/missing.txt" +:+ nl +:+ nl).
Proof. split; [vm_compute; reflexivity | vm_compute; discriminate]. Qed.



Lemma readable_file_block_witness :
  open_w (disk hello_world) "full_code.txt"
  = Ok (<["full_code.txt" := File ""]> (disk hello_world)) ∧
  (<["full_code.txt" := File ""]> (disk hello_world))
    !! path_join "/proj" "a.txt" = Some (File "hello") ∧
  utf8_valid "hello" = true ∧
  file_after (extract_and_combine_files hello_world "/proj" ["a.txt"] None)
    "full_code.txt"
  = Some ("a.txt<" +:+ nl +:+ nl +:+ "hello" +:+ nl +:+ nl
          +:+ "END OF a.txt>" +:+ nl +:+ nl).
Proof.
  assert (Hopen : open_w (disk hello_world) "full_code.txt"
                  = Ok (<["full_code.txt" := File ""]> (disk hello_world)))
    by (vm_compute; reflexivity).
  assert (Hd : (<["full_code.txt" := File ""]> (disk hello_world))
                 !! path_join "/proj" "a.txt" = Some (File "hello"))
    by (vm_compute; reflexivity).
  assert (Hv : utf8_valid "hello" = true) by reflexivity.
  split; [exact Hopen |]. split; [exact Hd |]. split; [exact Hv |].
  exact (proj2 (proj2 (readable_file_block hello_world "/proj" "a.txt" None _ _
                         Hopen Hd Hv))).
Defined.

(** C3, as stated, fails: a file whose lines end with a carriage return and
    a line feed, or with a lone carriage return, is valid UTF-8, and the text
    between its header and footer has a line feed in place of each of these
    line endings: it is not the content of the file byte for byte. *)
Lemma crlf_file_not_verbatim :
  utf8_valid crlf_bytes = true ∧
  file_after (extract_and_combine_files crlf_world "/proj" ["a.txt"] None)
    "full_code.txt"
  = Some ("a.txt<" +:+ nl +:+ nl
          +:+ ("a" +:+ nl +:+ "b" +:+ nl +:+ "c")
          +:+ nl +:+ nl +:+ "END OF a.txt>" +:+ nl +:+ nl) ∧
  file_after (extract_and_combine_files crlf_world "/proj" ["a.txt"] None)
    "full_code.txt"
  ≠ Some ("a.txt<" +:+ nl +:+ nl
          +:+ crlf_bytes
          +:+ nl +:+ nl +:+ "END OF a.txt>" +:+ nl +:+ nl).
Proof.
  split; [reflexivity |].
  split; [vm_compute; reflexivity | vm_compute; discriminate].
Qed.

Lemma undecodable_file_block_witness :
  open_w (disk mixed_world) "full_code.txt"
  = Ok (<["full_code.txt" := File ""]> (disk mixed_world)) ∧
  (<["full_code.txt" := File ""]> (disk mixed_world))
    !! path_join "/proj" "bin.dat" = Some (File (String "255" "")) ∧
  utf8_valid (String "255" "") = false ∧
  file_after (extract_and_combine_files mixed_world "/proj" ["bin.dat"] None)
    "full_code.txt"
  = Some ("bin.dat<" +:+ nl +:+ nl
          +:+ "Error: Unable to read /proj/bin.dat due to encoding issues." +:+ nl
          +:+ nl +:+ nl +:+ "END OF bin.dat>" +:+ nl +:+ nl).
Proof.
  assert (Hopen : open_w (disk mixed_world) "full_code.txt"
                  = Ok (<["full_code.txt" := File ""]> (disk mixed_world)))
    by (vm_compute; reflexivity).
  assert (Hd : (<["full_code.txt" := File ""]> (disk mixed_world))
                 !! path_join "/proj" "bin.dat" = Some (File (String "255" "")))
    by (vm_compute; reflexivity).
  assert (Hv : utf8_valid (String "255" "") = false) by reflexivity.
  split; [exact Hopen |]. split; [exact Hd |]. split; [exact Hv |].
  exact (proj2 (undecodable_file_block mixed_world "/proj" "bin.dat" None _ _
                  Hopen Hd Hv)).
Defined.

Lemma read_failure_block_witness :
  open_w (disk mixed_world) "full_code.txt"
  = Ok (<["full_code.txt" := File ""]> (disk mixed_world)) ∧
  path_exists (<["full_code.txt" := File ""]> (disk mixed_world))
    (path_join "/proj" "secret.txt") = true ∧
  read_text (<["full_code.txt" := File ""]> (disk mixed_world))
    (path_join "/proj" "secret.txt")
  = Exception "[Errno 13] Permission denied: '/proj/secret.txt'" ∧
  file_after (extract_and_combine_files mixed_world "/proj" ["secret.txt"] None)
    "full_code.txt"
  = Some ("secret.txt<" +:+ nl +:+ nl
          +:+ "Error: An unexpected error occurred while reading secret.txt: "
          +:+ "[Errno 13] Permission denied: '/proj/secret.txt'" +:+ nl
          +:+ nl +:+ nl +:+ "END OF secret.txt>" +:+ nl +:+ nl).
Proof.
  assert (Hopen : open_w (disk mixed_world) "full_code.txt"
                  = Ok (<["full_code.txt" := File ""]> (disk mixed_world)))
    by (vm_compute; reflexivity).
  assert (He : path_exists (<["full_code.txt" := File ""]> (disk mixed_world))
                 (path_join "/proj" "secret.txt") = true)
    by (vm_compute; reflexivity).
  assert (Hr : read_text (<["full_code.txt" := File ""]> (disk mixed_world))
                 (path_join "/proj" "secret.txt")
               = Exception "[Errno 13] Permission denied: '/proj/secret.txt'")
    by (vm_compute; reflexivity).
  split; [exact Hopen |]. split; [exact He |]. split; [exact Hr |].
  exact (proj2 (read_failure_block mixed_world "/proj" "secret.txt" None _ _
                  Hopen He Hr)).
Defined.



(** The whole output of that run: four entries, three of them error lines. *)
Example mixed_run_output :
  file_after
    (extract_and_combine_files mixed_world "/proj"
       ["a.txt"; "missing.txt"; "bin.dat"; "secret.txt"] None)
    "full_code.txt"
  = Some ("a.txt<" +:+ nl +:+ nl +:+ "hello" +:+ nl +:+ nl
          +:+ "END OF a.txt>" +:+ nl +:+ nl
          +:+ "Error: File not found - /proj/missing.txt" +:+ nl +:+ nl
          +:+ "bin.dat<" +:+ nl +:+ nl
          +:+ "Error: Unable to read /proj/bin.dat due to encoding issues." +:+ nl
          +:+ nl +:+ nl +:+ "END OF bin.dat>" +:+ nl +:+ nl
          +:+ "secret.txt<" +:+ nl +:+ nl
          +:+ "Error: An unexpected error occurred while reading secret.txt: "
          +:+ "[Errno 13] Permission denied: '/proj/secret.txt'" +:+ nl
          +:+ nl +:+ nl +:+ "END OF secret.txt>" +:+ nl +:+ nl).
Proof. vm_compute. reflexivity. Qed.

Lemma second_run_identical_witness :
  extract_and_combine_files hello_world "/proj" ["a.txt"; "missing.txt"] None
  = Ok (World
          (<["full_code.txt" :=
               File ("a.txt<" +:+ nl +:+ nl +:+ "hello" +:+ nl +:+ nl
                     +:+ "END OF a.txt>" +:+ nl +:+ nl
                     +:+ "Error: File not found - /proj/missing.txt"
                     +:+ nl +:+ nl)]> (disk hello_world))
          ["File extraction complete. Output saved to full_code.txt"]) ∧
  ∃ w2 : world,
    extract_and_combine_files
      (World
          (<["full_code.txt" :=
               File ("a.txt<" +:+ nl +:+ nl +:+ "hello" +:+ nl +:+ nl
                     +:+ "END OF a.txt>" +:+ nl +:+ nl
                     +:+ "Error: File not found - /proj/missing.txt"
                     +:+ nl +:+ nl)]> (disk hello_world))
          ["File extraction complete. Output saved to full_code.txt"])
      "/proj" ["a.txt"; "missing.txt"] None = Ok w2 ∧
    disk w2
    = <["full_code.txt" :=
          File ("a.txt<" +:+ nl +:+ nl +:+ "hello" +:+ nl +:+ nl
                +:+ "END OF a.txt>" +:+ nl +:+ nl
                +:+ "Error: File not found - /proj/missing.txt"
                +:+ nl +:+ nl)]> (disk hello_world).
Proof.
  assert (Hrun :
    extract_and_combine_files hello_world "/proj" ["a.txt"; "missing.txt"] None
    = Ok (World
            (<["full_code.txt" :=
                 File ("a.txt<" +:+ nl +:+ nl +:+ "hello" +:+ nl +:+ nl
                       +:+ "END OF a.txt>" +:+ nl +:+ nl
                       +:+ "Error: File not found - /proj/missing.txt"
                       +:+ nl +:+ nl)]> (disk hello_world))
            ["File extraction complete. Output saved to full_code.txt"]))
    by (vm_compute; reflexivity).
  split; [exact Hrun |].
  destruct (second_run_identical hello_world "/proj" ["a.txt"; "missing.txt"]
              None _ Hrun) as [_ [w2 [Hw2 [Hdisk _]]]].
  exists w2. split; [exact Hw2 | exact Hdisk].
Defined.


(** The output file held something before the run, and is empty after it. *)
Lemma empty_list_run_witness :
  open_w (<["out.txt" := File "old"]> ∅) "out.txt"
  = Ok (<["out.txt" := File ""]> ∅) ∧
  extract_and_combine_files (World (<["out.txt" := File "old"]> ∅) []) "/proj" []
    (Some "out.txt")
  = Ok (World (<["out.txt" := File ""]> (<["out.txt" := File "old"]> ∅))
          ["File extraction complete. Output saved to out.txt"]).
Proof.
  assert (Hopen : open_w (disk (World (<["out.txt" := File "old"]> ∅) []))
                    (output_name (Some "out.txt"))
                  = Ok (<["out.txt" := File ""]> ∅))
    by (vm_compute; reflexivity).
  split; [exact Hopen |].
  exact (proj2 (proj2 (empty_list_run (World (<["out.txt" := File "old"]> ∅) [])
                         "/proj" (Some "out.txt") _ Hopen))).
Defined.



(** ** Paths on POSIX: what [join] and [basename] make of the arguments *)

Lemma append_nil_l (s : string) : "" +:+ s = s.
Proof. reflexivity. Qed.

Lemma rfind_absent (c : ascii) (s : string) :
  contains c s = false → rfind c s = (-1)%Z.
Proof.
  induction s as [|a s IH]; simpl; [reflexivity |].
  intros [Ha Hs]%orb_false_iff. rewrite (IH Hs). simpl. by rewrite Ha.
Qed.

(** The index found is that of the last occurrence. *)
Lemma rfind_last (c : ascii) (pre post : string) :
  contains c post = false →
  rfind c (pre +:+ String c post) = Z.of_nat (String.length pre).
Proof.
  intros Hpost. induction pre as [|a pre IH].
  - rewrite append_nil_l. simpl. rewrite (rfind_absent _ _ Hpost). simpl.
    by rewrite Ascii.eqb_refl.
  - rewrite append_cons. simpl rfind. rewrite IH.
    destruct (0 <=? Z.of_nat (String.length pre))%Z eqn:Hi; simpl String.length; lia.
Qed.

Lemma slice_from_app (pre s : string) :
  slice_from (String.length pre) (pre +:+ s) = s.
Proof.
  induction pre as [|a pre IH]; [by destruct s |].
  rewrite append_cons. simpl. exact IH.
Qed.

Lemma contains_last_split (c : ascii) (s : string) :
  contains c s = true →
  ∃ pre post, s = pre +:+ String c post ∧ contains c post = false.
Proof.
  induction s as [|a s IH]; simpl; [discriminate |].
  destruct (contains c s) eqn:Hs.
  - intros _. destruct (IH eq_refl) as (pre & post & -> & Hpost).
    exists (String a pre), post. by rewrite append_cons.
  - rewrite orb_false_r. intros ->%Ascii.eqb_eq.
    exists "", s. by rewrite append_nil_l.
Qed.

Lemma endswith_snoc (c : ascii) (s : string) :
  endswith c (s +:+ String c "") = true.
Proof.
  induction s as [|a s IH]; [simpl; apply Ascii.eqb_refl |].
  rewrite append_cons. simpl.
  destruct (s +:+ String c "") eqn:Hs; [by destruct s | exact IH].
Qed.

Lemma endswith_split (c : ascii) (s : string) :
  endswith c s = true → ∃ s', s = s' +:+ String c "".
Proof.
  induction s as [|a s IH]; simpl; [discriminate |].
  destruct s as [|b s].
  - intros ->%Ascii.eqb_eq. by exists "".
  - intros Hs. destruct (IH Hs) as [s' Hs']. exists (String a s').
    by rewrite append_cons, <- Hs'.
Qed.

Lemma startswith_contains (c : ascii) (s : string) :
  startswith c s = true → contains c s = true.
Proof. destruct s as [|a s]; simpl; [discriminate |]. by intros ->. Qed.

Lemma basename_after_sep (pre post : string) :
  contains SEP post = false →
  posixpath.basename (pre +:+ String SEP post) = post.
Proof.
  intros Hpost. unfold posixpath.basename. rewrite (rfind_last _ _ _ Hpost).
  replace (Z.to_nat (Z.of_nat (String.length pre) + 1))
    with (String.length (pre +:+ String SEP "")).
  - replace (pre +:+ String SEP post) with ((pre +:+ String SEP "") +:+ post)
      by (by rewrite append_assoc, append_cons, append_nil_l).
    apply slice_from_app.
  - induction pre as [|a pre IH]; [reflexivity |].
    rewrite append_cons. simpl String.length. rewrite IH. lia.
Qed.

Lemma basename_no_sep (p : string) :
  contains SEP p = false → posixpath.basename p = p.
Proof.
  intros Hp. unfold posixpath.basename. by rewrite (rfind_absent _ _ Hp).
Qed.

(** The file name is what follows the last separator of the path: the path
    is a directory part, empty or ending with a separator, followed by the
    file name, and the file name holds no separator. *)
Theorem basename_split (p : string) :
  ∃ dir : string,
    p = dir +:+ posixpath.basename p ∧
    (dir = "" ∨ endswith SEP dir = true) ∧
    contains SEP (posixpath.basename p) = false.
Proof.
  destruct (contains SEP p) eqn:Hp.
  - destruct (contains_last_split _ _ Hp) as (pre & post & -> & Hpost).
    rewrite (basename_after_sep _ _ Hpost).
    exists (pre +:+ String SEP ""). split; [|split].
    + by rewrite append_assoc, append_cons, append_nil_l.
    + right. apply endswith_snoc.
    + exact Hpost.
  - rewrite (basename_no_sep _ Hp). exists "". by split; [|split; [left|]].
Qed.

(** The file name of the resolved path is the last component of the relative
    path, whatever the base directory. *)
Theorem basename_join (a b : string) :
  posixpath.basename (posixpath.join a b) = posixpath.basename b.
Proof.
  unfold posixpath.join.
  destruct (startswith SEP b) eqn:Hstart; [reflexivity |].
  destruct (contains SEP b) eqn:Hb.
  - destruct (contains_last_split _ _ Hb) as (pre & post & -> & Hpost).
    rewrite (basename_after_sep pre post Hpost).
    destruct (bool_decide (a = "") || endswith SEP a).
    + rewrite <- append_assoc. by apply basename_after_sep.
    + replace (a +:+ String SEP (pre +:+ String SEP post))
        with ((a +:+ String SEP pre) +:+ String SEP post)
        by (by rewrite append_assoc, append_cons).
      by apply basename_after_sep.
  - rewrite (basename_no_sep _ Hb).
    destruct (bool_decide (a = "")) eqn:Ha; simpl.
    + apply bool_decide_eq_true in Ha as ->. by apply basename_no_sep.
    + destruct (endswith SEP a) eqn:He.
      * destruct (endswith_split _ _ He) as [a' ->].
        rewrite append_assoc, append_cons, append_nil_l.
        by apply basename_after_sep.
      * by apply basename_after_sep.
Qed.

(** A relative path that ends with a separator has the empty file name. *)
Theorem basename_of_directory_path (a b : string) :
  posixpath.basename (posixpath.join a (b +:+ String SEP "")) = "".
Proof. rewrite basename_join. by apply basename_after_sep. Qed.

(** ** Well-formed UTF-8 is kept by what the program does to text *)

Lemma utf8_valid_cons (b0 : ascii) (s1 : string) :
  utf8_valid (String b0 s1)
  = match lead_of (N_of_ascii b0) with
    | Single => utf8_valid s1
    | Double =>
        match s1 with
        | String b1 s2 => continuation b1 && utf8_valid s2
        | _ => false
        end
    | Triple lo hi =>
        match s1 with
        | String b1 (String b2 s3) =>
            byte_in lo hi b1 && continuation b2 && utf8_valid s3
        | _ => false
        end
    | Quadruple lo hi =>
        match s1 with
        | String b1 (String b2 (String b3 s4)) =>
            byte_in lo hi b1 && continuation b2 && continuation b3
            && utf8_valid s4
        | _ => false
        end
    | Invalid => false
    end.
Proof. reflexivity. Qed.

Lemma utf8_valid_app (a b : string) :
  utf8_valid a = true → utf8_valid b = true → utf8_valid (a +:+ b) = true.
Proof.
  intros Ha Hb. revert Ha.
  assert (H : ∀ (n : nat) a, (String.length a < n)%nat →
    utf8_valid a = true → utf8_valid (a +:+ b) = true).
  { clear a. induction n as [|n IH]; intros a Hn Ha; [lia |].
    destruct a as [|b0 s1]; [exact Hb |].
    rewrite append_cons, utf8_valid_cons. rewrite utf8_valid_cons in Ha.
    destruct (lead_of (N_of_ascii b0)) as [| |lo hi|lo hi|].
    - apply IH; [simpl in Hn; lia | exact Ha].
    - destruct s1 as [|b1 s2]; [discriminate |].
      rewrite append_cons. apply andb_true_iff in Ha as [H1 H2].
      rewrite H1. simpl. apply IH; [simpl in Hn; lia | exact H2].
    - destruct s1 as [|b1 [|b2 s3]]; try discriminate.
      rewrite !append_cons.
      apply andb_true_iff in Ha as [[H1 H2]%andb_true_iff H3].
      rewrite H1, H2. simpl. apply IH; [simpl in Hn; lia | exact H3].
    - destruct s1 as [|b1 [|b2 [|b3 s4]]]; try discriminate.
      rewrite !append_cons.
      apply andb_true_iff in Ha as [[[H1 H2]%andb_true_iff H3]%andb_true_iff H4].
      rewrite H1, H2, H3. simpl. apply IH; [simpl in Hn; lia | exact H4].
    - discriminate. }
  apply (H (S (String.length a))). lia.
Qed.

(** A byte that begins or continues a sequence of several bytes is none of
    the ASCII characters the program looks for. *)
Lemma byte_in_high (lo hi : N) (c : ascii) :
  128 ≤ lo → byte_in lo hi c = true → 128 ≤ N_of_ascii c.
Proof.
  unfold byte_in. intros Hlo [H1 _]%andb_true_iff.
  apply N.leb_le in H1. lia.
Qed.

Lemma high_byte_neq (c x : ascii) :
  128 ≤ N_of_ascii c → N_of_ascii x < 128 → Ascii.eqb c x = false.
Proof.
  intros Hc Hx. destruct (Ascii.eqb_spec c x) as [->|]; [lia | reflexivity].
Qed.

Lemma lead_high (b : N) :
  match lead_of b with
  | Single => b ≤ 127
  | Double => 128 ≤ b
  | Triple lo _ | Quadruple lo _ => 128 ≤ b ∧ 128 ≤ lo
  | Invalid => True
  end.
Proof.
  unfold lead_of.
  repeat (match goal with |- context [if ?c then _ else _] =>
            let E := fresh "E" in destruct c eqn:E end);
    rewrite ?N.leb_le, ?N.leb_gt, ?N.ltb_lt, ?N.ltb_ge, ?N.eqb_eq, ?N.eqb_neq in *;
    try exact I; lia.
Qed.

Lemma utf8_valid_universal_newlines (s : string) :
  utf8_valid s = true → utf8_valid (universal_newlines s) = true.
Proof.
  assert (Hcr : N_of_ascii CR < 128) by reflexivity.
  assert (H : ∀ (n : nat) s, (String.length s < n)%nat →
    utf8_valid s = true → utf8_valid (universal_newlines s) = true).
  { clear s. induction n as [|n IH]; intros s Hn Hs; [lia |].
    destruct s as [|b0 s1]; [reflexivity |].
    rewrite utf8_valid_cons in Hs. rewrite universal_newlines_cons.
    pose proof (lead_high (N_of_ascii b0)) as Hb0.
    destruct (lead_of (N_of_ascii b0)) as [| |lo hi|lo hi|] eqn:Hl.
    - destruct (Ascii.eqb b0 CR) eqn:Hb.
      + destruct s1 as [|d rest]; [reflexivity |].
        destruct (Ascii.eqb_spec d LF) as [->|_].
        * change (utf8_valid (String LF ?t)) with (utf8_valid t) in *.
          apply IH; [simpl in Hn |- *; lia | exact Hs].
        * change (utf8_valid (String LF ?t)) with (utf8_valid t).
          apply IH; [simpl in Hn |- *; lia | exact Hs].
      + rewrite utf8_valid_cons, Hl. apply IH; [simpl in Hn |- *; lia | exact Hs].
    - rewrite (high_byte_neq b0 CR) by (done || lia).
      destruct s1 as [|b1 s2]; [discriminate |].
      apply andb_true_iff in Hs as [H1 H2].
      rewrite universal_newlines_cons.
      rewrite (high_byte_neq b1 CR)
        by (done || by apply (byte_in_high 128 191)).
      rewrite utf8_valid_cons, Hl, H1. simpl.
      apply IH; [simpl in Hn |- *; lia | exact H2].
    - destruct Hb0 as [Hb0 Hlo].
      rewrite (high_byte_neq b0 CR) by (done || lia).
      destruct s1 as [|b1 [|b2 s3]]; try discriminate.
      apply andb_true_iff in Hs as [[H1 H2]%andb_true_iff H3].
      rewrite universal_newlines_cons.
      rewrite (high_byte_neq b1 CR)
        by (done || by apply (byte_in_high lo hi)).
      rewrite universal_newlines_cons.
      rewrite (high_byte_neq b2 CR)
        by (done || by apply (byte_in_high 128 191)).
      rewrite utf8_valid_cons, Hl, H1, H2. simpl.
      apply IH; [simpl in Hn |- *; lia | exact H3].
    - destruct Hb0 as [Hb0 Hlo].
      rewrite (high_byte_neq b0 CR) by (done || lia).
      destruct s1 as [|b1 [|b2 [|b3 s4]]]; try discriminate.
      apply andb_true_iff in Hs
        as [[[H1 H2]%andb_true_iff H3]%andb_true_iff H4].
      rewrite universal_newlines_cons.
      rewrite (high_byte_neq b1 CR)
        by (done || by apply (byte_in_high lo hi)).
      rewrite universal_newlines_cons.
      rewrite (high_byte_neq b2 CR)
        by (done || by apply (byte_in_high 128 191)).
      rewrite universal_newlines_cons.
      rewrite (high_byte_neq b3 CR)
        by (done || by apply (byte_in_high 128 191)).
      rewrite utf8_valid_cons, Hl, H1, H2, H3. simpl.
      apply IH; [simpl in Hn |- *; lia | exact H4].
    - discriminate. }
  apply (H (S (String.length s))). lia.
Qed.

(** What follows a separator in well-formed UTF-8 is well-formed: the
    separator is no part of a sequence of several bytes. *)
Lemma utf8_valid_after_sep (pre post : string) :
  utf8_valid (pre +:+ String SEP post) = true → utf8_valid post = true.
Proof.
  assert (Hsep : ∀ lo hi, 128 ≤ lo → byte_in lo hi SEP = false).
  { intros lo hi Hlo. destruct (byte_in lo hi SEP) eqn:Hb; [|reflexivity].
    apply (byte_in_high _ _ _ Hlo) in Hb. vm_compute in Hb. by destruct Hb. }
  assert (H : ∀ (n : nat) pre, (String.length pre < n)%nat →
    utf8_valid (pre +:+ String SEP post) = true → utf8_valid post = true).
  { clear pre. induction n as [|n IH]; intros pre Hn Hs; [lia |].
    destruct pre as [|b0 s1]; [exact Hs |].
    rewrite append_cons, utf8_valid_cons in Hs.
    pose proof (lead_high (N_of_ascii b0)) as Hb0.
    destruct (lead_of (N_of_ascii b0)) as [| |lo hi|lo hi|] eqn:Hl.
    - apply (IH s1); [simpl in Hn |- *; lia | exact Hs].
    - destruct s1 as [|b1 s2]; [discriminate |].
      rewrite append_cons in Hs. apply andb_true_iff in Hs as [_ H2].
      apply (IH s2); [simpl in Hn |- *; lia | exact H2].
    - destruct Hb0 as [_ Hlo].
      destruct s1 as [|b1 [|b2 s3]].
      + rewrite append_nil_l in Hs. destruct post as [|c post'];
          [discriminate |]. by rewrite (Hsep lo hi Hlo) in Hs.
      + rewrite append_cons, append_nil_l in Hs.
        destruct (byte_in lo hi b1); discriminate.
      + rewrite !append_cons in Hs.
        apply andb_true_iff in Hs as [_ H3].
        apply (IH s3); [simpl in Hn |- *; lia | exact H3].
    - destruct Hb0 as [_ Hlo].
      destruct s1 as [|b1 [|b2 [|b3 s4]]].
      + rewrite append_nil_l in Hs. destruct post as [|c [|c' post']];
          try discriminate. by rewrite (Hsep lo hi Hlo) in Hs.
      + rewrite append_cons, append_nil_l in Hs.
        destruct post as [|c post']; [discriminate |].
        destruct (byte_in lo hi b1); discriminate.
      + rewrite !append_cons, append_nil_l in Hs.
        destruct (byte_in lo hi b1), (continuation b2); discriminate.
      + rewrite !append_cons in Hs.
        apply andb_true_iff in Hs as [_ H4].
        apply (IH s4); [simpl in Hn |- *; lia | exact H4].
    - discriminate. }
  apply (H (S (String.length pre))). lia.
Qed.

Lemma utf8_valid_basename (p : string) :
  utf8_valid p = true → utf8_valid (posixpath.basename p) = true.
Proof.
  intros Hp. destruct (contains SEP p) eqn:Hc.
  - destruct (contains_last_split _ _ Hc) as (pre & post & -> & Hpost).
    rewrite (basename_after_sep _ _ Hpost).
    by apply (utf8_valid_after_sep pre).
  - by rewrite (basename_no_sep _ Hc).
Qed.

Lemma utf8_valid_join (a b : string) :
  utf8_valid a = true → utf8_valid b = true →
  utf8_valid (posixpath.join a b) = true.
Proof.
  intros Ha Hb. unfold posixpath.join.
  destruct (startswith SEP b); [exact Hb |].
  destruct (bool_decide (a = "") || endswith SEP a).
  - by apply utf8_valid_app.
  - apply utf8_valid_app; [exact Ha |].
    by apply (utf8_valid_app (String SEP "") b).
Qed.

Lemma utf8_valid_text_of (chunks : outfile_t) :
  Forall (λ s, utf8_valid s = true) chunks → utf8_valid (text_of chunks) = true.
Proof.
  induction 1 as [|s chunks Hs _ IH]; [reflexivity |].
  by apply (utf8_valid_app s (text_of chunks)).
Qed.

(** ** What a run touches, and what its output depends on *)

Section frame.
Context `{os}.
Implicit Types (w : world) (d : gmap string node) (outfile : outfile_t).
Implicit Types (project_folder file_path : string) (file_paths : list string).
Implicit Types (output_file : option string).

Lemma block_same_node d1 d2 project_folder file_path :
  d1 !! path_join project_folder file_path
  = d2 !! path_join project_folder file_path →
  block d1 project_folder file_path = block d2 project_folder file_path.
Proof.
  intros Hd. unfold block, process, path_exists, read_text. by rewrite Hd.
Qed.

Lemma block_same_join d f1 f2 file_path :
  path_join f1 file_path = path_join f2 file_path →
  block d f1 file_path = block d f2 file_path.
Proof. intros Hj. unfold block, process. by rewrite Hj. Qed.

(** The entries depend on the disk through the listed paths only; what the
    output path held before does not matter, as the loop reads there what
    the writer has flushed. *)
Lemma entries_same_nodes d1 d2 (out : string) project_folder file_paths outfile :
  (∀ file_path, file_path ∈ file_paths →
     path_join project_folder file_path ≠ out →
     d1 !! path_join project_folder file_path
     = d2 !! path_join project_folder file_path) →
  entries d1 out project_folder file_paths outfile
  = entries d2 out project_folder file_paths outfile.
Proof.
  revert outfile. induction file_paths as [|p ps IH]; intros outfile Hagree;
    simpl; [reflexivity |].
  assert (Hb : block (seen d1 out outfile) project_folder p
               = block (seen d2 out outfile) project_folder p).
  { apply block_same_node. unfold seen.
    destruct (decide (path_join project_folder p = out)) as [->|Hne].
    - by rewrite !lookup_insert_eq.
    - rewrite !lookup_insert_ne by done.
      apply Hagree; [apply list_elem_of_here | done]. }
  rewrite Hb. f_equal. apply IH. intros q Hq. apply Hagree.
  by apply list_elem_of_further.
Qed.

Lemma entries_same_joins d (out : string) f1 f2 file_paths outfile :
  (∀ file_path, file_path ∈ file_paths →
     path_join f1 file_path = path_join f2 file_path) →
  entries d out f1 file_paths outfile = entries d out f2 file_paths outfile.
Proof.
  revert outfile. induction file_paths as [|p ps IH]; intros outfile Hj;
    simpl; [reflexivity |].
  rewrite (block_same_join _ f1 f2 p) by (apply Hj, list_elem_of_here).
  f_equal. apply IH. intros q Hq. by apply Hj, list_elem_of_further.
Qed.

Lemma entries_app d (out : string) project_folder (xs ys : list string) outfile :
  entries d out project_folder (xs ++ ys) outfile
  = entries d out project_folder xs outfile
    ++ entries d out project_folder ys
         (outfile ++ concat (entries d out project_folder xs outfile)).
Proof.
  revert outfile. induction xs as [|x xs IH]; intros outfile; simpl.
  - by rewrite app_nil_r.
  - f_equal. rewrite IH. by rewrite <- app_assoc.
Qed.

(** X3: the bundle is a function of the listed files alone: two filesystems that
    agree on every resolved path of the list, the output file itself apart,
    give the same output file. *)
Theorem output_depends_on_listed_files w1 w2 project_folder file_paths
    output_file d1 d2 :
  open_w (disk w1) (output_name output_file) = Ok d1 →
  open_w (disk w2) (output_name output_file) = Ok d2 →
  (∀ file_path, file_path ∈ file_paths →
     path_join project_folder file_path ≠ output_name output_file →
     disk w1 !! path_join project_folder file_path
     = disk w2 !! path_join project_folder file_path) →
  file_after (extract_and_combine_files w1 project_folder file_paths output_file)
    (output_name output_file)
  = file_after (extract_and_combine_files w2 project_folder file_paths output_file)
    (output_name output_file).
Proof.
  intros Ho1 Ho2 Hagree.
  rewrite (run_file _ _ _ _ _ Ho1), (run_file _ _ _ _ _ Ho2).
  apply open_w_Ok in Ho1 as [-> _]. apply open_w_Ok in Ho2 as [-> _].
  do 4 f_equal. apply entries_same_nodes. intros p Hp Hne.
  rewrite !lookup_insert_ne by done. by apply Hagree.
Qed.

(** The run sees the base directory through [os.path.join] only. *)
Lemma run_same_joins w f1 f2 file_paths output_file :
  (∀ file_path, file_path ∈ file_paths →
     path_join f1 file_path = path_join f2 file_path) →
  extract_and_combine_files w f1 file_paths output_file
  = extract_and_combine_files w f2 file_paths output_file.
Proof.
  intros Hj. unfold extract_and_combine_files.
  destruct (open_w (disk w) (output_name output_file)) as [d|e];
    [|reflexivity].
  rewrite !step_entries. do 5 f_equal. by apply entries_same_joins.
Qed.

(** X4: every entry ends with an empty line, and so does the output file of a
    run over a list that is not empty: the last two things in it are line
    separators. *)
Theorem output_ends_with_blank_line w project_folder file_paths output_file d :
  open_w (disk w) (output_name output_file) = Ok d →
  file_paths ≠ [] →
  (∀ file_path, file_path ∈ file_paths →
     ∃ t, text_of (block d project_folder file_path) = t +:+ nl +:+ nl) ∧
  ∃ t, file_after
         (extract_and_combine_files w project_folder file_paths output_file)
         (output_name output_file)
       = Some (t +:+ linesep +:+ linesep).
Proof.
  intros Hopen Hne.
  assert (Hblock : ∀ d' p, ∃ t,
    text_of (block d' project_folder p) = t +:+ nl +:+ nl).
  { intros d' p.
    destruct (block_rendered d' project_folder p)
      as [bytes Hd Hv|bytes Hd Hv|msg Hd|Hd].
    - eexists. rewrite text_of_three. unfold footer.
      rewrite <- !append_assoc. reflexivity.
    - eexists. rewrite text_of_three. unfold footer.
      rewrite <- !append_assoc. reflexivity.
    - eexists. rewrite text_of_three. unfold footer.
      rewrite <- !append_assoc. reflexivity.
    - eexists. unfold text_of. simpl. rewrite append_nil_r. unfold not_found.
      rewrite <- !append_assoc. reflexivity. }
  split; [intros p _; apply Hblock |].
  rewrite (run_file _ _ _ _ _ Hopen).
  destruct file_paths as [|p0 ps] using rev_ind; [done |]. clear IHps.
  rewrite entries_app, concat_app, text_of_app.
  change (entries d (output_name output_file) project_folder [p0] ?o)
    with [block (seen d (output_name output_file) o) project_folder p0].
  cbn [concat]. rewrite app_nil_r.
  match goal with
  | |- context [text_of (block ?d' project_folder p0)] =>
      destruct (Hblock d' p0) as [t ->]
  end.
  rewrite !translate_newlines_app.
  assert (Hnl : translate_newlines linesep nl = linesep).
  { unfold nl. simpl. by rewrite append_nil_r. }
  rewrite Hnl. eexists. rewrite <- !append_assoc. reflexivity.
Qed.

(** X5: what is written for a file that could be read holds no carriage
    return, whatever line endings the file has. *)
Theorem content_has_no_carriage_return d project_folder file_path bytes :
  d !! path_join project_folder file_path = Some (File bytes) →
  utf8_valid bytes = true →
  ∃ content,
    block d project_folder file_path
    = [header (path_basename (path_join project_folder file_path));
       content;
       footer (path_basename (path_join project_folder file_path))] ∧
    no_cr content = true.
Proof.
  intros Hd Hv.
  rewrite (existing_file_block d _ _ (path_exists_Some _ _ _ Hd)).
  unfold read_text. rewrite Hd, Hv. eexists. split; [reflexivity |].
  apply universal_newlines_clean.
Qed.

End frame.

(** ** Entries that cannot be told apart *)


Lemma utf8_valid_header (file_name : string) :
  utf8_valid file_name = true → utf8_valid (header file_name) = true.
Proof. intros Hn. unfold header. by apply utf8_valid_app. Qed.

Lemma utf8_valid_footer (file_name : string) :
  utf8_valid file_name = true → utf8_valid (footer file_name) = true.
Proof.
  intros Hn. unfold footer.
  apply (utf8_valid_app nl); [reflexivity |].
  apply (utf8_valid_app nl); [reflexivity |].
  apply (utf8_valid_app "END OF "); [reflexivity |].
  by apply utf8_valid_app.
Qed.

Section forgery.
Context `{os}.
Implicit Types (d : gmap string node) (project_folder file_path : string).




End forgery.

(** ** The program on POSIX paths *)

(** X8: the header and the footer of an entry name the last component of the
    relative path: neither the base directory nor the directories of the
    relative path appear in them, and the name holds no separator. *)
Theorem entry_names_last_component (d : gmap string node)
    (project_folder file_path : string) :
  path_exists d (posixpath.join project_folder file_path) = true →
  contains SEP (posixpath.basename file_path) = false ∧
  ∃ body,
    block d project_folder file_path
    = [header (posixpath.basename file_path);
       body;
       footer (posixpath.basename file_path)].
Proof.
  intros He. split.
  - destruct (basename_split file_path) as (dir & _ & _ & Hn). exact Hn.
  - rewrite (@existing_file_block posix d project_folder file_path He).
    change (path_basename (path_join project_folder file_path))
      with (posixpath.basename (posixpath.join project_folder file_path)).
    rewrite basename_join. eexists. reflexivity.
Qed.

(** X9: a relative path that ends with a separator and exists (a directory) gets
    an entry with the empty name: its header is [<] and a blank line. *)
Theorem directory_path_has_empty_name (d : gmap string node)
    (project_folder file_path : string) :
  path_exists d (posixpath.join project_folder (file_path +:+ "/")) = true →
  ∃ body,
    block d project_folder (file_path +:+ "/")
    = ["<" +:+ nl +:+ nl; body; nl +:+ nl +:+ "END OF >" +:+ nl +:+ nl].
Proof.
  intros He.
  rewrite (@existing_file_block posix d project_folder _ He).
  change (path_basename (path_join project_folder (file_path +:+ "/")))
    with (posixpath.basename
            (posixpath.join project_folder (file_path +:+ String SEP ""))).
  rewrite basename_of_directory_path. eexists. reflexivity.
Qed.

(** X10: a path of the list that starts with a separator is resolved to itself:
    the base directory plays no part, and the file read lies wherever the
    path says. *)
Theorem absolute_paths_ignore_base_directory (w : world) (f1 f2 : string)
    (file_paths : list string) (output_file : option string) :
  Forall (λ file_path, startswith SEP file_path = true) file_paths →
  Forall (λ file_path, path_join f1 file_path = file_path) file_paths ∧
  extract_and_combine_files w f1 file_paths output_file
  = extract_and_combine_files w f2 file_paths output_file.
Proof.
  intros Habs.
  assert (Hj : ∀ f p, p ∈ file_paths → posixpath.join f p = p).
  { intros f p Hp. rewrite Forall_forall in Habs.
    unfold posixpath.join. by rewrite (Habs p Hp). }
  split.
  - apply Forall_forall. intros p Hp. by apply Hj.
  - apply run_same_joins. intros p Hp.
    change (posixpath.join f1 p = posixpath.join f2 p).
    by rewrite !Hj.
Qed.

(** X11: a separator at the end of the base directory makes no difference. *)
Theorem trailing_separator_is_immaterial (w : world) (project_folder : string)
    (file_paths : list string) (output_file : option string) :
  project_folder ≠ "" →
  endswith SEP project_folder = false →
  extract_and_combine_files w (project_folder +:+ "/") file_paths output_file
  = extract_and_combine_files w project_folder file_paths output_file.
Proof.
  intros Hne Hend. apply run_same_joins. intros p _.
  change (posixpath.join (project_folder +:+ "/") p
          = posixpath.join project_folder p).
  unfold posixpath.join. destruct (startswith SEP p); [reflexivity |].
  replace (endswith SEP (project_folder +:+ "/")) with true
    by (symmetry; apply (endswith_snoc SEP)).
  rewrite Hend, orb_true_r, (bool_decide_eq_false_2 _ Hne). simpl.
  by rewrite append_assoc.
Qed.

Lemma block_utf8 (d : gmap string node) (project_folder file_path : string) :
  utf8_valid project_folder = true →
  utf8_valid file_path = true →
  (∀ msg, d !! posixpath.join project_folder file_path = Some (Denied msg) →
          utf8_valid msg = true) →
  Forall (λ s, utf8_valid s = true) (block d project_folder file_path).
Proof.
  intros Hf Hp Hmsg.
  pose proof (utf8_valid_join _ _ Hf Hp) as Hfull.
  pose proof (utf8_valid_basename _ Hfull) as Hname.
  destruct (block_rendered d project_folder file_path)
    as [bytes Hd Hv|bytes Hd Hv|msg Hd|Hd]; repeat apply Forall_cons_2;
    try apply Forall_nil_2;
    try (by apply utf8_valid_header); try (by apply utf8_valid_footer).
  - by apply utf8_valid_universal_newlines.
  - unfold encoding_error.
    apply (utf8_valid_app "Error: Unable to read "); [reflexivity |].
    by apply utf8_valid_app.
  - unfold unexpected_error.
    apply (utf8_valid_app "Error: An unexpected error occurred while reading ");
      [reflexivity |].
    apply utf8_valid_app; [exact Hname |].
    apply (utf8_valid_app ": "); [reflexivity |].
    apply utf8_valid_app; [by apply Hmsg | reflexivity].
  - unfold not_found.
    apply (utf8_valid_app "Error: File not found - "); [reflexivity |].
    by apply utf8_valid_app.
Qed.

Lemma entries_utf8 (d : gmap string node) (out project_folder : string)
    (file_paths : list string) (outfile : outfile_t) :
  utf8_valid project_folder = true →
  Forall (λ file_path, utf8_valid file_path = true) file_paths →
  (∀ path msg, d !! path = Some (Denied msg) → utf8_valid msg = true) →
  Forall (λ s, utf8_valid s = true)
    (concat (entries d out project_folder file_paths outfile)).
Proof.
  intros Hf Hps Hmsg. revert outfile.
  induction Hps as [|p ps Hp _ IH]; intros outfile; simpl;
    [apply Forall_nil_2 |].
  apply Forall_app. split; [|apply IH].
  apply block_utf8; [exact Hf | exact Hp |].
  intros msg. unfold seen.
  destruct (decide (posixpath.join project_folder p = out)) as [->|Hne].
  - rewrite lookup_insert_eq. discriminate.
  - rewrite lookup_insert_ne by done. apply Hmsg.
Qed.

(** X12: the output file is well-formed UTF-8 whatever bytes the listed files
    hold, as long as the base directory, the paths of the list and the
    messages of the exceptions are: the bytes of a file that does not decode
    never reach the output. *)
Theorem output_is_valid_utf8 (w : world) (project_folder : string)
    (file_paths : list string) (output_file : option string)
    (d : gmap string node) :
  open_w (disk w) (output_name output_file) = Ok d →
  utf8_valid project_folder = true →
  Forall (λ file_path, utf8_valid file_path = true) file_paths →
  (∀ path msg, d !! path = Some (Denied msg) → utf8_valid msg = true) →
  ∃ text,
    file_after
      (extract_and_combine_files w project_folder file_paths output_file)
      (output_name output_file) = Some text ∧
    utf8_valid text = true.
Proof.
  intros Hopen Hf Hps Hmsg.
  rewrite (run_file _ _ _ _ _ Hopen).
  change linesep with nl. rewrite translate_newlines_posix.
  eexists. split; [reflexivity |].
  by apply utf8_valid_text_of, entries_utf8.
Qed.

(** ** The further properties on concrete inputs *)

Lemma output_depends_on_listed_files_witness :
  file_after
    (extract_and_combine_files hello_world "/proj" ["a.txt"; "missing.txt"] None)
    "full_code.txt"
  = file_after
      (extract_and_combine_files mixed_world "/proj" ["a.txt"; "missing.txt"] None)
      "full_code.txt".
Proof.
  assert (Ho1 : open_w (disk hello_world) (output_name None)
                = Ok (<["full_code.txt" := File ""]> (disk hello_world)))
    by (vm_compute; reflexivity).
  assert (Ho2 : open_w (disk mixed_world) (output_name None)
                = Ok (<["full_code.txt" := File ""]> (disk mixed_world)))
    by (vm_compute; reflexivity).
  apply (output_depends_on_listed_files hello_world mixed_world "/proj"
           ["a.txt"; "missing.txt"] None _ _ Ho1 Ho2).
  intros p Hp _.
  apply elem_of_cons in Hp as [->|Hp]; [vm_compute; reflexivity |].
  apply elem_of_cons in Hp as [->|Hp]; [vm_compute; reflexivity |].
  by apply elem_of_nil in Hp.
Defined.

Lemma output_ends_with_blank_line_witness :
  ∃ t, file_after
         (extract_and_combine_files mixed_world "/proj"
            ["a.txt"; "missing.txt"] None)
         "full_code.txt"
       = Some (t +:+ nl +:+ nl).
Proof.
  assert (Hopen : open_w (disk mixed_world) (output_name None)
                  = Ok (<["full_code.txt" := File ""]> (disk mixed_world)))
    by (vm_compute; reflexivity).
  assert (Hne : ["a.txt"; "missing.txt"] ≠ @nil string) by discriminate.
  exact (proj2 (output_ends_with_blank_line mixed_world "/proj"
                  ["a.txt"; "missing.txt"] None _ Hopen Hne)).
Defined.

Lemma content_has_no_carriage_return_witness :
  ∃ content,
    block (disk crlf_world) "/proj" "a.txt"
    = [header "a.txt"; content; footer "a.txt"] ∧
    no_cr content = true.
Proof.
  assert (Hd : disk crlf_world !! path_join "/proj" "a.txt"
               = Some (File crlf_bytes)) by (vm_compute; reflexivity).
  assert (Hv : utf8_valid crlf_bytes = true) by reflexivity.
  exact (content_has_no_carriage_return (disk crlf_world) "/proj" "a.txt"
           crlf_bytes Hd Hv).
Defined.



Lemma entry_names_last_component_witness :
  contains SEP "a.txt" = false ∧
  ∃ body,
    block (disk twin_world) "/proj" "one/a.txt"
    = [header "a.txt"; body; footer "a.txt"].
Proof.
  assert (He : path_exists (disk twin_world) (posixpath.join "/proj" "one/a.txt")
               = true) by (vm_compute; reflexivity).
  exact (entry_names_last_component (disk twin_world) "/proj" "one/a.txt" He).
Defined.

Lemma directory_path_has_empty_name_witness :
  ∃ body,
    block (disk dir_world) "/proj" "src/"
    = ["<" +:+ nl +:+ nl; body; nl +:+ nl +:+ "END OF >" +:+ nl +:+ nl].
Proof.
  assert (He : path_exists (disk dir_world) (posixpath.join "/proj" ("src" +:+ "/"))
               = true) by (vm_compute; reflexivity).
  exact (directory_path_has_empty_name (disk dir_world) "/proj" "src" He).
Defined.

Lemma absolute_paths_ignore_base_directory_witness :
  extract_and_combine_files hello_world "/elsewhere" ["/proj/a.txt"] None
  = extract_and_combine_files hello_world "/proj" ["/proj/a.txt"] None.
Proof.
  assert (Habs : Forall (λ p, startswith SEP p = true) ["/proj/a.txt"])
    by (apply Forall_cons_2; [reflexivity | apply Forall_nil_2]).
  exact (proj2 (absolute_paths_ignore_base_directory hello_world "/elsewhere"
                  "/proj" ["/proj/a.txt"] None Habs)).
Defined.

Lemma trailing_separator_is_immaterial_witness :
  extract_and_combine_files hello_world ("/proj" +:+ "/") ["a.txt"] None
  = extract_and_combine_files hello_world "/proj" ["a.txt"] None.
Proof.
  assert (Hne : "/proj" ≠ "") by discriminate.
  assert (Hend : endswith SEP "/proj" = false) by reflexivity.
  exact (trailing_separator_is_immaterial hello_world "/proj" ["a.txt"] None
           Hne Hend).
Defined.

Lemma output_is_valid_utf8_witness :
  utf8_valid (String "255" "") = false ∧
  ∃ text,
    file_after
      (extract_and_combine_files mixed_world "/proj"
         ["a.txt"; "missing.txt"; "bin.dat"; "secret.txt"] None)
      "full_code.txt" = Some text ∧
    utf8_valid text = true.
Proof.
  assert (Hopen : open_w (disk mixed_world) (output_name None)
                  = Ok (<["full_code.txt" := File ""]> (disk mixed_world)))
    by (vm_compute; reflexivity).
  assert (Hps : Forall (λ p, utf8_valid p = true)
                  ["a.txt"; "missing.txt"; "bin.dat"; "secret.txt"])
    by (repeat apply Forall_cons_2; try apply Forall_nil_2; reflexivity).
  assert (Hmsg : ∀ path msg,
    (<["full_code.txt" := File ""]> (disk mixed_world)) !! path
    = Some (Denied msg) → utf8_valid msg = true).
  { intros path msg. unfold mixed_world. simpl disk.
    rewrite !lookup_insert, lookup_empty.
    repeat case_decide; intros Hd; inversion Hd; reflexivity. }
  split; [reflexivity |].
  exact (output_is_valid_utf8 mixed_world "/proj"
           ["a.txt"; "missing.txt"; "bin.dat"; "secret.txt"] None _
           Hopen eq_refl Hps Hmsg).
Defined.

(** ** Line endings on a platform whose separator is CR LF *)

Lemma crlf_round_trip (s : string) :
  crlf_only s = true →
  translate_newlines (String CR nl) (universal_newlines s) = s.
Proof.
  assert (H : ∀ (n : nat) s, (String.length s < n)%nat →
    crlf_only s = true →
    translate_newlines (String CR nl) (universal_newlines s) = s).
  { clear s. induction n as [|n IH]; intros s Hn Hs; [lia |].
    destruct s as [|c rest]; [reflexivity |].
    rewrite universal_newlines_cons. simpl in Hs.
    destruct (Ascii.eqb_spec c CR) as [->|Hc].
    - destruct rest as [|d rest']; [discriminate |].
      apply andb_true_iff in Hs as [Hd Hs]. rewrite Hd.
      apply Ascii.eqb_eq in Hd as ->.
      simpl. rewrite IH; [reflexivity | simpl in Hn |- *; lia | exact Hs].
    - apply andb_true_iff in Hs as [Hlf Hs].
      apply negb_true_iff in Hlf. simpl. rewrite Hlf.
      rewrite IH; [reflexivity | simpl in Hn |- *; lia | exact Hs]. }
  apply (H (S (String.length s))).
  lia.
Qed.

(** X13: where the line separator of the platform is a carriage return and a
    line feed, a readable file all of whose lines end that way stands in
    the output file byte for byte, between the translated header and
    footer. *)
Theorem crlf_file_is_kept_where_linesep_is_crlf `{os} (w : world)
    (project_folder file_path : string) (output_file : option string)
    (d : gmap string node) (bytes : string) :
  linesep = String CR nl →
  open_w (disk w) (output_name output_file) = Ok d →
  d !! path_join project_folder file_path = Some (File bytes) →
  utf8_valid bytes = true →
  crlf_only bytes = true →
  file_after
    (extract_and_combine_files w project_folder [file_path] output_file)
    (output_name output_file)
  = Some (translate_newlines linesep
            (header (path_basename (path_join project_folder file_path)))
          +:+ bytes
          +:+ translate_newlines linesep
                (footer (path_basename (path_join project_folder file_path)))).
Proof.
  intros Hsep Hopen Hd Hv Hcrlf.
  rewrite (run_single _ _ _ _ _ Hopen).
  rewrite (existing_file_block d _ _ (path_exists_Some _ _ _ Hd)).
  unfold read_text. rewrite Hd, Hv, text_of_three.
  rewrite !translate_newlines_app. rewrite Hsep at 2.
  by rewrite (crlf_round_trip _ Hcrlf).
Qed.

Lemma crlf_file_is_kept_where_linesep_is_crlf_witness :
  file_after
    (@extract_and_combine_files
       {| path_join := posixpath.join;
          path_basename := posixpath.basename;
          linesep := String CR nl;
          on_disk := cpython_io.on_disk cpython_io.DEFAULT_BUFFER_SIZE;
          on_disk_nil := eq_refl |}
       (World {["/proj/a.txt" := File ("a" +:+ String CR nl)]} [])
       "/proj" ["a.txt"] None)
    "full_code.txt"
  = Some ("a.txt<" +:+ String CR nl +:+ String CR nl
          +:+ ("a" +:+ String CR nl)
          +:+ String CR nl +:+ String CR nl +:+ "END OF a.txt>"
          +:+ String CR nl +:+ String CR nl).
Proof.
  exact (@crlf_file_is_kept_where_linesep_is_crlf
           {| path_join := posixpath.join;
              path_basename := posixpath.basename;
              linesep := String CR nl;
              on_disk := cpython_io.on_disk cpython_io.DEFAULT_BUFFER_SIZE;
              on_disk_nil := eq_refl |}
           (World {["/proj/a.txt" := File ("a" +:+ String CR nl)]} [])
           "/proj" "a.txt" None
           (<["full_code.txt" := File ""]> {["/proj/a.txt" := File ("a" +:+ String CR nl)]})
           ("a" +:+ String CR nl)
           eq_refl eq_refl eq_refl eq_refl eq_refl).
Defined.
